(** * DataProcessor (t4.cpp): a shallow embedding and its properties

    The class owns one private [std::vector<int>] and has three methods:
    [processValue], [validateData] and [addData].  Every method is modelled
    as a computation in a small state monad, the state being what the method
    can reach: the receiver object, and for [validateData] also the vector
    bound to its [const&] parameter. *)

From Stdlib Require Import ZArith Lia String.
From stdpp Require Import base list.
From Equations Require Import Equations.

Local Open Scope Z_scope.

(** ** Machine integers *)

Module Int.

(** [int] is 32 bits wide, two's complement. *)
Definition min_int : Z := - 2 ^ 31.
Definition max_int : Z := 2 ^ 31 - 1.

Definition in_range (z : Z) : Prop := min_int <= z <= max_int.

(** The representative of [z] in the range of [int]. *)
Definition wrap (z : Z) : Z := (z + 2 ^ 31) mod 2 ^ 32 - 2 ^ 31.

Definition add (a b : Z) : Z := wrap (a + b).
Definition sub (a b : Z) : Z := wrap (a - b).
Definition mul (a b : Z) : Z := wrap (a * b).

(** [%] truncates towards zero, as [Z.rem] does. *)
Definition rem (a b : Z) : Z := Z.rem a b.

(** Conversion of an [int] to [size_t] (64 bits, unsigned), which the
    comparison [i < v.size()] and the call [v[i]] apply to [i]. *)
Definition to_size_t (z : Z) : Z := z mod 2 ^ 64.

Lemma wrap_small z : in_range z -> wrap z = z.
Proof.
  unfold in_range, min_int, max_int, wrap. intros Hz.
  rewrite Z.mod_small; lia.
Qed.

Lemma wrap_in_range z : in_range (wrap z).
Proof.
  unfold in_range, min_int, max_int, wrap.
  pose proof (Z.mod_pos_bound (z + 2 ^ 31) (2 ^ 32)). lia.
Qed.

Lemma to_size_t_small z : 0 <= z < 2 ^ 64 -> to_size_t z = z.
Proof. intros Hz. unfold to_size_t. now rewrite Z.mod_small. Qed.

(** If [i], seen as a [size_t], is below a bound that fits an [int], then
    [i + 1] does not overflow and is that [size_t] plus one. *)
Lemma add_1_below (i n : Z) :
  n <= max_int -> to_size_t i < n -> add i 1 = to_size_t i + 1.
Proof.
  unfold max_int, to_size_t, add, wrap. intros Hn Hi.
  pose proof (Z.mod_pos_bound i (2 ^ 64)) as Hb.
  assert (Hdiv : i = 2 ^ 32 * (2 ^ 32 * (i / 2 ^ 64)) + i mod 2 ^ 64).
  { pose proof (Z.div_mod i (2 ^ 64)). lia. }
  set (k := i mod 2 ^ 64) in *.
  replace (i + 1 + 2 ^ 31)
    with (k + 1 + 2 ^ 31 + (2 ^ 32 * (i / 2 ^ 64)) * 2 ^ 32) by lia.
  rewrite Z.mod_add by lia. rewrite Z.mod_small; lia.
Qed.

End Int.

(** ** State monad *)

Definition M (S A : Type) : Type := S -> A * S.

Definition ret {S A} (a : A) : M S A := fun s => (a, s).
Definition bind {S A B} (m : M S A) (k : A -> M S B) : M S B :=
  fun s => let (a, s') := m s in k a s'.
Definition gets {S A} (f : S -> A) : M S A := fun s => (f s, s).
Definition modify {S} (f : S -> S) : M S unit := fun s => (tt, f s).

Notation "'let*' x ':=' m 'in' k" := (bind m (fun x => k))
  (at level 10, x name, m at level 100, k at level 200).

(** ** The class *)

Record DataProcessor : Type := mkDataProcessor { data : list Z }.

(** [DataProcessor() {}] *)
Definition new : DataProcessor := mkDataProcessor [].

(** [data.size()], a [size_t]. *)
Definition size (v : list Z) : Z := Z.of_nat (length v).

(** [data.push_back(value)] *)
Definition push_back (value : Z) (d : DataProcessor) : DataProcessor :=
  mkDataProcessor (data d ++ [value]).

(** [int processValue(int input, std::string mode)] *)
Definition processValue (input : Z) (mode : string) : M DataProcessor Z :=
  if 0 <? input then
    if String.eqb mode "double" then
      if input <? 100 then
        if Int.rem input 2 =? 0 then
          if 10 <? input then
            ret (Int.add (Int.mul input 2) 5)
          else
            ret (Int.mul input 2)
        else
          ret (Int.sub (Int.mul input 2) 1)
      else
        ret 200
    else if String.eqb mode "triple" then
      if input <? 50 then
        ret (Int.mul input 3)
      else
        ret 0
    else
      ret 0
  else
    ret 0.

(** ** [validateData] *)

(** What [validateData] can reach: the receiver, and the caller's vector that
    its parameter [const std::vector<int>& inputData] is bound to.  [data] is
    private and no method hands out a reference to it, so the two never
    alias. *)
Record Frame : Type := mkFrame { this : DataProcessor; inputData : list Z }.

Section ValidateLoop.

Variable v : list Z.

(** The loop stands under the guard [inputData.size() < 1000]. *)
Hypothesis Hsize : size v < 1000.

(** [for (int i = 0; i < v.size(); i++) if (v[i] <= 0) { allPositive =
    false; break; }], started at [i]; the result is [allPositive] at the
    exit of the loop.  Reading [v[i]] out of range is undefined in C++; the
    loop condition excludes it ([validate_loop_in_range] below). *)
Equations? validate_loop (i : Z) : bool
  by wf (Z.to_nat (size v - Int.to_size_t i)) lt :=
  validate_loop i with Z_lt_dec (Int.to_size_t i) (size v) => {
    | left Hlt =>
        match v !! Z.to_nat (Int.to_size_t i) with
        | Some x => if x <=? 0 then false else validate_loop (Int.add i 1)
        | None => false
        end
    | right _ => true }.
Proof.
  assert (Hs : Int.add i 1 = Int.to_size_t i + 1).
  { apply (Int.add_1_below i (size v)); [unfold Int.max_int; lia | exact Hlt]. }
  rewrite Hs.
  assert (Hk : 0 <= Int.to_size_t i) by (apply Z.mod_pos_bound; lia).
  rewrite Int.to_size_t_small by lia. lia.
Qed.

End ValidateLoop.

(** [bool validateData(const std::vector<int>& inputData)] *)
Definition validateData : M Frame bool :=
  let* v := gets inputData in
  let isValid := false in
  if negb (bool_decide (v = [])) then
    if 0 <? size v then
      match Z_lt_dec (size v) 1000 with
      | left Hsize =>
          let allPositive := validate_loop v Hsize 0 in
          if allPositive then ret true else ret isValid
      | right _ => ret isValid
      end
    else ret isValid
  else ret isValid.

(** ** [addData] *)

(** [void addData(int value)] *)
Definition addData (value : Z) : M DataProcessor unit :=
  if 0 <? value then
    if value <? 10000 then
      let* n := gets (fun d => size (data d)) in
      if n <? 100 then
        modify (push_back value)
      else ret tt
    else ret tt
  else ret tt.

(** The three guards of [addData]. *)
Definition accepts (value : Z) (d : DataProcessor) : Prop :=
  0 < value /\ value < 10000 /\ (length (data d) < 100)%nat.

(** ** Clients *)

(** A call a client can make on an instance. *)
Inductive call : Type :=
| CallProcessValue (input : Z) (mode : string)
| CallValidateData (v : list Z)
| CallAddData (value : Z).

(** The receiver after a call. *)
Definition step (d : DataProcessor) (c : call) : DataProcessor :=
  match c with
  | CallProcessValue input mode => snd (processValue input mode d)
  | CallValidateData v => this (snd (validateData (mkFrame d v)))
  | CallAddData value => snd (addData value d)
  end.

Definition run_calls (cs : list call) (d : DataProcessor) : DataProcessor :=
  foldl step d cs.

(** The instances a client can get hold of: a fresh one, and whatever a call
    turns a reachable one into. *)
Inductive reachable : DataProcessor -> Prop :=
| reachable_new : reachable new
| reachable_step d c : reachable d -> reachable (step d c).

(** The store's invariant. *)
Definition store_ok (d : DataProcessor) : Prop :=
  Forall (fun v => 0 < v < 10000) (data d) /\ (length (data d) <= 100)%nat.

(** The values that a sequence of calls offers to [addData] and that pass its
    two range guards, in the order of the calls. *)
Definition offered (cs : list call) : list Z :=
  omap (fun c => match c with
                 | CallAddData value =>
                     if (0 <? value) && (value <? 10000) then Some value else None
                 | _ => None
                 end) cs.

(** ** Signed overflow *)

(** Overflow of a signed operation is undefined in C++.  The checked
    operations give [None] where the exact result does not fit an [int]. *)
Module Checked.

Definition fit (z : Z) : option Z :=
  if (Int.min_int <=? z) && (z <=? Int.max_int) then Some z else None.

Definition add (a b : Z) : option Z := fit (a + b).
Definition sub (a b : Z) : option Z := fit (a - b).
Definition mul (a b : Z) : option Z := fit (a * b).

(** [processValue], every arithmetic operation checked; [None] stands for
    undefined behaviour.  The method does not touch the receiver. *)
Definition processValue (input : Z) (mode : string) : option Z :=
  if 0 <? input then
    if String.eqb mode "double" then
      if input <? 100 then
        if Int.rem input 2 =? 0 then
          if 10 <? input then
            m ← mul input 2; add m 5
          else
            mul input 2
        else
          m ← mul input 2; sub m 1
      else
        Some 200
    else if String.eqb mode "triple" then
      if input <? 50 then
        mul input 3
      else
        Some 0
    else
      Some 0
  else
    Some 0.

End Checked.

(** * Properties *)

(** ** [processValue] *)

Section ProcessValue.

Variables (input : Z) (mode : string) (d : DataProcessor).

(** Under the guards of a branch no operation overflows: strip the
    wrap-arounds, innermost first. *)
Ltac int_exact :=
  unfold Int.add, Int.sub, Int.mul;
  repeat match goal with
    | |- context [Int.wrap ?z] =>
        lazymatch z with
        | context [Int.wrap _] => fail
        | _ => rewrite (Int.wrap_small z)
                 by (unfold Int.in_range, Int.min_int, Int.max_int; lia)
        end
    end;
  try reflexivity.

Lemma processValue_nonpos :
  input <= 0 -> processValue input mode d = (0, d).
Proof.
  intros Hle. unfold processValue.
  destruct (Z.ltb_spec 0 input); [lia | reflexivity].
Qed.

Lemma processValue_unrecognized :
  mode <> "double"%string -> mode <> "triple"%string ->
  processValue input mode d = (0, d).
Proof.
  intros Hd Ht. unfold processValue.
  apply String.eqb_neq in Hd, Ht. rewrite Hd, Ht.
  now destruct (0 <? input).
Qed.

(** [input % 2 == 0] tests evenness. *)
Lemma rem_2_even : (Int.rem input 2 =? 0) = Z.even input.
Proof.
  unfold Int.rem. rewrite Zeven_mod.
  destruct (Z.eqb_spec (Z.rem input 2) 0) as [Hr | Hr],
    (Z.eqb_spec (input mod 2) 0) as [Hm | Hm]; try reflexivity; exfalso.
  - apply Hm. apply Z.rem_divide in Hr; [| lia].
    apply Z.mod_divide; [lia | exact Hr].
  - apply Hr. apply Z.rem_divide; [lia |].
    apply Z.mod_divide; [lia | exact Hm].
Qed.

Lemma processValue_double_eq :
  0 < input ->
  processValue input "double" d =
    (if input <? 100 then
       if Z.even input then
         if 10 <? input then input * 2 + 5 else input * 2
       else input * 2 - 1
     else 200, d).
Proof.
  intros Hpos. unfold processValue. rewrite rem_2_even.
  destruct (Z.ltb_spec 0 input); [| lia]. cbn [String.eqb Ascii.eqb].
  change (String.eqb "double" "double") with true. cbv iota.
  destruct (Z.ltb_spec input 100); [| reflexivity].
  destruct (Z.even input); [destruct (10 <? input) |];
    unfold ret; f_equal; int_exact.
Qed.

Lemma processValue_triple_eq :
  0 < input ->
  processValue input "triple" d =
    (if input <? 50 then input * 3 else 0, d).
Proof.
  intros Hpos. unfold processValue.
  destruct (Z.ltb_spec 0 input); [| lia].
  change (String.eqb "triple" "double") with false.
  change (String.eqb "triple" "triple") with true. cbv iota.
  destruct (Z.ltb_spec input 50); [| reflexivity].
  unfold ret; f_equal; int_exact.
Qed.

End ProcessValue.

(** ** [validateData] *)

Section ValidateLoopFacts.

Variable v : list Z.
Hypothesis Hsize : size v < 1000.


(** A counter that an earlier iteration produced is its own [size_t]. *)
Lemma to_size_t_index (k : nat) :
  (k <= length v)%nat -> Int.to_size_t (Z.of_nat k) = Z.of_nat k.
Proof.
  intros Hk. apply Int.to_size_t_small. unfold size in Hsize. lia.
Qed.

(** One turn of the loop. *)
Lemma validate_loop_turn (i : Z) :
  validate_loop v Hsize i =
    if Z_lt_dec (Int.to_size_t i) (size v) then
      match v !! Z.to_nat (Int.to_size_t i) with
      | Some x => if x <=? 0 then false else validate_loop v Hsize (Int.add i 1)
      | None => false
      end
    else true.
Proof.
  rewrite validate_loop_equation_1.
  destruct (Z_lt_dec _ _); reflexivity.
Qed.

(** From counter [k] on, the loop checks the elements from position [k]. *)
Lemma validate_loop_drop (k : nat) :
  (k <= length v)%nat ->
  validate_loop v Hsize (Z.of_nat k) = forallb (fun x => 0 <? x) (drop k v).
Proof.
  remember (length v - k)%nat as n eqn:Hn.
  revert k Hn. induction n as [| n IH]; intros k Hn Hk;
    pose proof (to_size_t_index k Hk) as Hidx;
    rewrite validate_loop_turn;
    destruct (Z_lt_dec _ _) as [Hlt | Hge].
  - exfalso. unfold size in Hlt. lia.
  - rewrite drop_ge by lia. reflexivity.
  - assert (Hlen : (k < length v)%nat) by lia.
    destruct (lookup_lt_is_Some_2 v k Hlen) as [x Hx].
    rewrite (drop_S v x k Hx). cbn [forallb].
    rewrite (Int.add_1_below _ (size v)) by (unfold Int.max_int; lia).
    rewrite Hidx, Nat2Z.id, Hx.
    replace (Z.of_nat k + 1) with (Z.of_nat (S k)) by lia.
    rewrite (IH (S k)) by lia.
    destruct (Z.leb_spec x 0), (Z.ltb_spec 0 x); (reflexivity || lia).
  - exfalso. unfold size in Hge. lia.
Qed.

End ValidateLoopFacts.

(** [validateData] changes nothing, and its verdict is the conjunction of the
    three tests. *)
Lemma validateData_eq (f : Frame) :
  validateData f =
    (bool_decide (inputData f <> []) && (size (inputData f) <? 1000)
       && forallb (fun x => 0 <? x) (inputData f), f).
Proof.
  unfold validateData, bind, gets. destruct f as [d v]. cbn [inputData].
  destruct v as [| x v]; [reflexivity |].
  rewrite (bool_decide_eq_false_2 (x :: v = [])) by discriminate.
  rewrite (bool_decide_eq_true_2 (x :: v <> [])) by discriminate.
  cbn [negb andb].
  assert (Hpos : (0 <? size (x :: v)) = true).
  { apply Z.ltb_lt. unfold size. cbn [length]. lia. }
  rewrite Hpos.
  destruct (Z_lt_dec (size (x :: v)) 1000) as [Hlt | Hge].
  - pose proof (validate_loop_drop _ Hlt 0%nat ltac:(lia)) as Hloop.
    rewrite drop_0 in Hloop. change (Z.of_nat 0) with 0 in Hloop. rewrite Hloop.
    rewrite (proj2 (Z.ltb_lt _ _) Hlt). cbn [andb].
    now destruct (forallb _ _).
  - rewrite (proj2 (Z.ltb_nlt _ _) Hge). reflexivity.
Qed.

Lemma forallb_pos (v : list Z) :
  forallb (fun x => 0 <? x) v = true <-> Forall (fun x => 0 < x) v.
Proof.
  rewrite forallb_forall, List.Forall_forall.
  split; intros H x Hx; apply Z.ltb_lt, H, Hx.
Qed.

(** The verdict, as a proposition about the vector. *)
Lemma validateData_true (f : Frame) :
  fst (validateData f) = true <->
  inputData f <> [] /\ (length (inputData f) < 1000)%nat /\
  Forall (fun x => 0 < x) (inputData f).
Proof.
  rewrite validateData_eq. cbn [fst].
  rewrite !andb_true_iff, bool_decide_eq_true, Z.ltb_lt, forallb_pos.
  unfold size. intuition lia.
Qed.

(** ** [addData] *)

Lemma addData_accept (value : Z) (d : DataProcessor) :
  accepts value d -> addData value d = (tt, push_back value d).
Proof.
  intros (Hpos & Hmax & Hlen). unfold addData, bind, gets, modify, size.
  destruct (Z.ltb_spec 0 value); [| lia].
  destruct (Z.ltb_spec value 10000); [| lia].
  destruct (Z.ltb_spec (Z.of_nat (length (data d))) 100); [reflexivity | lia].
Qed.

Lemma addData_reject (value : Z) (d : DataProcessor) :
  ~ accepts value d -> addData value d = (tt, d).
Proof.
  unfold accepts, addData, bind, gets, modify, ret, size. intros Hno.
  destruct (Z.ltb_spec 0 value); [| reflexivity].
  destruct (Z.ltb_spec value 10000); [| reflexivity].
  destruct (Z.ltb_spec (Z.of_nat (length (data d))) 100); [| reflexivity].
  exfalso. apply Hno. lia.
Qed.

Lemma accepts_dec (value : Z) (d : DataProcessor) :
  {accepts value d} + {~ accepts value d}.
Proof.
  unfold accepts.
  destruct (Z_lt_dec 0 value); [| right; tauto].
  destruct (Z_lt_dec value 10000); [| right; tauto].
  destruct (lt_dec (length (data d)) 100); [left | right]; tauto.
Defined.

(** A push changes the store. *)
Lemma push_back_neq (value : Z) (d : DataProcessor) : push_back value d <> d.
Proof.
  intros Heq. apply (f_equal (fun x => length (data x))) in Heq.
  unfold push_back in Heq. cbn [data] in Heq.
  rewrite length_app in Heq. cbn [length] in Heq. lia.
Qed.

(** ** Sequences of calls *)

(** What a call does to the store. *)
Lemma step_data (d : DataProcessor) (c : call) :
  step d c = d \/
  exists value, c = CallAddData value /\ accepts value d /\
                step d c = push_back value d.
Proof.
  destruct c as [input mode | v | value]; cbn [step].
  - left. unfold processValue.
    repeat match goal with |- context [if ?b then _ else _] => destruct b end;
      reflexivity.
  - left. now rewrite validateData_eq.
  - destruct (accepts_dec value d) as [Hyes | Hno].
    + right. exists value. now rewrite addData_accept.
    + left. now rewrite addData_reject.
Qed.

Lemma store_ok_new : store_ok new.
Proof. split; [constructor | cbn; lia]. Qed.

Lemma store_ok_step (d : DataProcessor) (c : call) :
  store_ok d -> store_ok (step d c).
Proof.
  intros [Hall Hlen].
  destruct (step_data d c) as [-> | (value & _ & (Hpos & Hmax & Hroom) & ->)];
    [now split |].
  unfold store_ok, push_back. cbn [data]. split.
  - apply Forall_app. split; [exact Hall |]. repeat constructor; lia.
  - rewrite length_app. cbn [length]. lia.
Qed.

Lemma step_prefix (d : DataProcessor) (c : call) :
  data d `prefix_of` data (step d c).
Proof.
  destruct (step_data d c) as [-> | (value & _ & _ & ->)]; [reflexivity |].
  now exists [value].
Qed.

Lemma reachable_store_ok (d : DataProcessor) : reachable d -> store_ok d.
Proof.
  induction 1 as [| d c _ IH]; [exact store_ok_new | exact (store_ok_step d c IH)].
Qed.

Lemma run_calls_cons (c : call) (cs : list call) (d : DataProcessor) :
  run_calls (c :: cs) d = run_calls cs (step d c).
Proof. reflexivity. Qed.

Lemma reachable_run_calls (cs : list call) (d : DataProcessor) :
  reachable d -> reachable (run_calls cs d).
Proof.
  revert d. induction cs as [| c cs IH]; intros d Hd; [exact Hd |].
  rewrite run_calls_cons. apply IH. now constructor.
Qed.

(** Feeding in-range values to a store with at most 100 elements fills it up
    to 100 and drops the rest. *)
Lemma run_addData (vs : list Z) (d : DataProcessor) :
  Forall (fun v => 0 < v < 10000) vs ->
  (length (data d) <= 100)%nat ->
  data (run_calls (map CallAddData vs) d) =
    data d ++ take (100 - length (data d)) vs.
Proof.
  intros Hvs. revert d.
  induction Hvs as [| v vs Hv _ IH]; intros d Hlen.
  - rewrite take_nil, app_nil_r. reflexivity.
  - cbn [map]. rewrite run_calls_cons. cbn [step].
    destruct (accepts_dec v d) as [Hyes | Hno].
    + destruct Hyes as (? & ? & Hroom).
      rewrite addData_accept by (unfold accepts; lia). cbn [snd].
      rewrite IH; unfold push_back; cbn [data]; rewrite length_app; cbn [length];
        [| lia].
      replace (100 - length (data d))%nat
        with (S (100 - (length (data d) + 1)))%nat by lia.
      cbn [take]. now rewrite <- app_assoc.
    + rewrite addData_reject by exact Hno. cbn [snd]. rewrite IH by exact Hlen.
      assert (Hfull : (100 - length (data d) = 0)%nat).
      { unfold accepts in Hno. lia. }
      now rewrite Hfull.
Qed.

(** ** The sample calls of the specification *)

Example processValue_samples :
  fst (processValue 0 "double" new) = 0 /\
  fst (processValue (-5) "triple" new) = 0 /\
  fst (processValue 12 "double" new) = 29 /\
  fst (processValue 4 "double" new) = 8 /\
  fst (processValue 7 "double" new) = 13 /\
  fst (processValue 150 "double" new) = 200 /\
  fst (processValue 10 "triple" new) = 30 /\
  fst (processValue 60 "triple" new) = 0 /\
  fst (processValue 5 "unknown" new) = 0.
Proof. repeat split. Qed.

Example validateData_samples :
  fst (validateData (mkFrame new [])) = false /\
  fst (validateData (mkFrame new [1; -2; 3])) = false /\
  fst (validateData (mkFrame new (replicate 1000 1))) = false /\
  fst (validateData (mkFrame new [1; 2; 3])) = true.
Proof. repeat split; vm_compute; reflexivity. Qed.

Example addData_samples :
  snd (addData 0 new) = new /\
  snd (addData (-3) new) = new /\
  snd (addData 10000 new) = new /\
  snd (addData 9999 new) = mkDataProcessor [9999].
Proof. repeat split. Qed.

(** * The claims *)

(** C1: for [0 < input] and mode ["double"], [processValue] returns 200 if
    [input >= 100]; otherwise [input*2 + 5] if [input] is even and
    [input > 10]; otherwise [input*2] if [input] is even; otherwise (odd)
    [input*2 - 1]. *)
Theorem processValue_double (input : Z) (d : DataProcessor) :
  0 < input ->
  fst (processValue input "double" d) =
    if 100 <=? input then 200
    else if Z.even input then
           if 10 <? input then input * 2 + 5 else input * 2
         else input * 2 - 1.
Proof.
  intros Hpos. rewrite processValue_double_eq by exact Hpos. cbn [fst].
  destruct (Z.ltb_spec input 100), (Z.leb_spec 100 input);
    (reflexivity || lia).
Qed.

Lemma processValue_double_witness :
  0 < 12 /\ fst (processValue 12 "double" new) = 29.
Proof.
  split; [reflexivity | exact (processValue_double 12 new eq_refl)].
Defined.

(** C5: for [0 < input] and mode ["triple"], [processValue] returns
    [input*3] when [input < 50] and 0 when [input >= 50]. *)
Theorem processValue_triple (input : Z) (d : DataProcessor) :
  0 < input ->
  fst (processValue input "triple" d) = if input <? 50 then input * 3 else 0.
Proof.
  intros Hpos. now rewrite processValue_triple_eq.
Qed.

Lemma processValue_triple_witness :
  0 < 60 /\ fst (processValue 60 "triple" new) = 0.
Proof.
  split; [reflexivity | exact (processValue_triple 60 new eq_refl)].
Defined.

(** C6: for every [input <= 0] and every mode string, recognised or not,
    [processValue] returns 0. *)
Theorem processValue_nonpositive (input : Z) (mode : string) (d : DataProcessor) :
  input <= 0 -> fst (processValue input mode d) = 0.
Proof.
  intros Hle. now rewrite processValue_nonpos.
Qed.

Lemma processValue_nonpositive_witness :
  -5 <= 0 /\ fst (processValue (-5) "triple" new) = 0.
Proof.
  split; [discriminate | apply processValue_nonpositive; discriminate].
Defined.

(** C7: for every input and every mode other than ["double"] and
    ["triple"], [processValue] returns 0 and signals nothing: all that the
    caller gets, the returned [int] and the untouched receiver, is what the
    recognised calls [processValue 0 "double"] and [processValue 60 "triple"]
    give as well. *)
Theorem processValue_unknown_mode (input : Z) (mode : string) (d : DataProcessor) :
  mode <> "double"%string -> mode <> "triple"%string ->
  processValue input mode d = (0, d) /\
  processValue input mode d = processValue 0 "double" d /\
  processValue input mode d = processValue 60 "triple" d.
Proof.
  intros Hd Ht. now rewrite processValue_unrecognized.
Qed.

Lemma processValue_unknown_mode_witness :
  "unknown"%string <> "double"%string /\ "unknown"%string <> "triple"%string /\
  processValue 5 "unknown" new = (0, new).
Proof.
  split; [discriminate | split; [discriminate |]].
  apply (processValue_unknown_mode 5 "unknown" new); discriminate.
Defined.

(** C10: for every input and every mode, the value that [processValue]
    returns is not negative. *)
Theorem processValue_nonneg (input : Z) (mode : string) (d : DataProcessor) :
  0 <= fst (processValue input mode d).
Proof.
  destruct (Z_lt_dec 0 input) as [Hpos | Hle];
    [| rewrite processValue_nonpos by lia; reflexivity].
  destruct (String.eqb_spec mode "double") as [-> | Hd].
  - rewrite processValue_double_eq by exact Hpos. cbn [fst].
    destruct (input <? 100), (Z.even input), (10 <? input); lia.
  - destruct (String.eqb_spec mode "triple") as [-> | Ht].
    + rewrite processValue_triple_eq by exact Hpos. cbn [fst].
      destruct (input <? 50); lia.
    + rewrite processValue_unrecognized by assumption. reflexivity.
Qed.

(** C2: [validateData] returns true if and only if the sequence is not
    empty, its length is strictly below 1000 and every element is strictly
    positive; any violation yields false. *)
Theorem validateData_verdict (d : DataProcessor) (v : list Z) :
  (fst (validateData (mkFrame d v)) = true <->
     v <> [] /\ (length v < 1000)%nat /\ Forall (fun x => 0 < x) v) /\
  (fst (validateData (mkFrame d v)) = false <->
     ~ (v <> [] /\ (length v < 1000)%nat /\ Forall (fun x => 0 < x) v)).
Proof.
  pose proof (validateData_true (mkFrame d v)) as Hiff. cbn [inputData] in Hiff.
  split; [exact Hiff |].
  rewrite <- Hiff. now destruct (fst (validateData (mkFrame d v))).
Qed.

(** C3: [addData] pushes the value onto the end of the store if and only if
    [value > 0], [value < 10000] and the store holds fewer than 100 elements;
    in every other case the store is left as it was.  The method returns
    [void]: nothing tells the caller which of the two happened. *)
Theorem addData_pushes_iff (value : Z) (d : DataProcessor) :
  (data (snd (addData value d)) = data d ++ [value] <->
     0 < value /\ value < 10000 /\ (length (data d) < 100)%nat) /\
  (snd (addData value d) = d <->
     ~ (0 < value /\ value < 10000 /\ (length (data d) < 100)%nat)).
Proof.
  fold (accepts value d).
  destruct (accepts_dec value d) as [Hyes | Hno].
  - rewrite addData_accept by exact Hyes. cbn [snd].
    split; [now split |].
    split; [intros Heq; now apply push_back_neq in Heq | tauto].
  - rewrite addData_reject by exact Hno. cbn [snd].
    split; [| tauto].
    split; [| tauto].
    intros Heq. apply (f_equal length) in Heq.
    rewrite length_app in Heq. cbn [length] in Heq. lia.
Qed.

(** C4: in every store reachable from the empty one by calls of the three
    methods, every stored value [v] satisfies [0 < v < 10000], the length is
    at most 100, and any further call leaves the present elements as a
    prefix of the new store. *)
Theorem reachable_invariant (d : DataProcessor) :
  reachable d ->
  Forall (fun v => 0 < v < 10000) (data d) /\
  (length (data d) <= 100)%nat /\
  forall c : call, data d `prefix_of` data (step d c).
Proof.
  intros Hd. destruct (reachable_store_ok d Hd) as [Hall Hlen].
  split; [exact Hall |]. split; [exact Hlen |].
  intros c. apply step_prefix.
Qed.

Lemma reachable_invariant_witness :
  reachable (mkDataProcessor [7]) /\
  Forall (fun v => 0 < v < 10000) [7] /\
  (length [7] <= 100)%nat /\
  forall c : call,
    [7] `prefix_of` data (step (mkDataProcessor [7]) c).
Proof.
  assert (Hr : reachable (mkDataProcessor [7])).
  { exact (reachable_step (step new (CallValidateData [1; 2]))
             (CallAddData 7)
             (reachable_step new (CallValidateData [1; 2]) reachable_new)). }
  split; [exact Hr | exact (reachable_invariant (mkDataProcessor [7]) Hr)].
Defined.

(** C8: starting from the empty store, appending 101 values that each
    satisfy [0 < value < 10000] gives a store of length exactly 100 that
    holds the first 100 of them in their order. *)
Theorem addData_101 (vs : list Z) :
  length vs = 101%nat ->
  Forall (fun v => 0 < v < 10000) vs ->
  length (data (run_calls (map CallAddData vs) new)) = 100%nat /\
  data (run_calls (map CallAddData vs) new) = take 100 vs.
Proof.
  intros Hlen Hvs.
  rewrite (run_addData vs new Hvs) by (cbn; lia). cbn [new data length app].
  split; [| reflexivity].
  rewrite length_take. change (100 - 0)%nat with 100%nat. lia.
Qed.

Lemma addData_101_witness :
  length (Z.of_nat <$> seq 1 101) = 101%nat /\
  Forall (fun v => 0 < v < 10000) (Z.of_nat <$> seq 1 101) /\
  data (run_calls (map CallAddData (Z.of_nat <$> seq 1 101)) new) =
    Z.of_nat <$> seq 1 100.
Proof.
  assert (Hvs : Forall (fun v => 0 < v < 10000) (Z.of_nat <$> seq 1 101)).
  { apply Forall_fmap, Forall_seq. intros j Hj. cbn. lia. }
  split; [reflexivity |]. split; [exact Hvs |].
  exact (proj2 (addData_101 (Z.of_nat <$> seq 1 101) eq_refl Hvs)).
Defined.

(** C9: [processValue] and [validateData] have no side effects: the store,
    and the caller's vector that [validateData] reads, are after the call
    what they were before, and the results do not depend on the store. *)
Theorem query_methods_pure
    (d d' : DataProcessor) (input : Z) (mode : string) (v : list Z) :
  snd (processValue input mode d) = d /\
  snd (validateData (mkFrame d v)) = mkFrame d v /\
  fst (processValue input mode d) = fst (processValue input mode d') /\
  fst (validateData (mkFrame d v)) = fst (validateData (mkFrame d' v)).
Proof.
  rewrite !validateData_eq. cbn [fst snd inputData].
  repeat split; unfold processValue;
    repeat match goal with |- context [if ?b then _ else _] => destruct b end;
    reflexivity.
Qed.

(** * Further properties *)

(** ** The range of [processValue] *)

(** X1: whatever the input and the mode, [processValue] returns at most 201
    (reached at input 98 in mode ["double"]). *)
Theorem processValue_upper_bound (input : Z) (mode : string) (d : DataProcessor) :
  fst (processValue input mode d) <= 201 /\
  fst (processValue 98 "double" d) = 201.
Proof.
  split; [| reflexivity].
  destruct (Z_lt_dec 0 input) as [Hpos | Hle];
    [| rewrite processValue_nonpos by lia; cbn; lia].
  destruct (String.eqb_spec mode "double") as [-> | Hd].
  - rewrite processValue_double_eq by exact Hpos. cbn [fst].
    destruct (Z.ltb_spec input 100); [| lia].
    destruct (Z.even input) eqn:Hev; [destruct (10 <? input) |]; try lia.
    (* the largest even input below 100 is 98 *)
    assert (input <> 99); [| lia].
    intros ->. discriminate Hev.
  - destruct (String.eqb_spec mode "triple") as [-> | Ht].
    + rewrite processValue_triple_eq by exact Hpos. cbn [fst].
      destruct (Z.ltb_spec input 50); lia.
    + rewrite processValue_unrecognized by assumption. cbn. lia.
Qed.

(** X2: [processValue] returns 0 exactly when the input is not positive, or
    the mode is ["triple"] and the input is at least 50, or the mode is
    neither ["double"] nor ["triple"].  In mode ["double"] a positive input
    never gives 0. *)
Theorem processValue_zero_iff (input : Z) (mode : string) (d : DataProcessor) :
  fst (processValue input mode d) = 0 <->
  input <= 0 \/
  (mode = "triple"%string /\ 50 <= input) \/
  (mode <> "double"%string /\ mode <> "triple"%string).
Proof.
  destruct (Z_lt_dec 0 input) as [Hpos | Hle];
    [| rewrite processValue_nonpos by lia; cbn [fst]; split; [left; lia | reflexivity]].
  destruct (String.eqb_spec mode "double") as [-> | Hd].
  - rewrite processValue_double_eq by exact Hpos. cbn [fst]. split.
    + destruct (input <? 100), (Z.even input), (10 <? input); lia.
    + intros [? | [[? _] | [? _]]]; [lia | discriminate | congruence].
  - destruct (String.eqb_spec mode "triple") as [-> | Ht].
    + rewrite processValue_triple_eq by exact Hpos. cbn [fst].
      destruct (Z.ltb_spec input 50); split; try lia.
      * intros [? | [[_ ?] | [_ ?]]]; [lia | lia | congruence].
      * intros _. right. left. split; [reflexivity | lia].
    + rewrite processValue_unrecognized by assumption. cbn [fst].
      split; [intros _; right; right; now split | reflexivity].
Qed.

(** X3: mode ["double"] is not injective: an even input between 12 and 96
    and the odd input three above it give the same result. *)
Theorem processValue_double_collision (input : Z) (d : DataProcessor) :
  Z.even input = true -> 10 < input -> input < 97 ->
  fst (processValue input "double" d) = fst (processValue (input + 3) "double" d).
Proof.
  intros Hev Hlo Hhi.
  rewrite !processValue_double_eq by lia. cbn [fst].
  assert (Hodd : Z.even (input + 3) = false).
  { rewrite Z.even_add, Hev. reflexivity. }
  rewrite Hev, Hodd.
  destruct (Z.ltb_spec input 100), (Z.ltb_spec (input + 3) 100),
    (Z.ltb_spec 10 input); lia.
Qed.

Lemma processValue_double_collision_witness :
  Z.even 12 = true /\ 10 < 12 /\ 12 < 97 /\
  fst (processValue 12 "double" new) = fst (processValue 15 "double" new).
Proof.
  repeat (split; [reflexivity |]).
  exact (processValue_double_collision 12 new eq_refl eq_refl eq_refl).
Defined.

(** X4: no call of [processValue] overflows a signed operation: with every
    multiplication, addition and subtraction checked, the method still
    returns, and returns what the wrapping model returns. *)
Theorem processValue_no_overflow (input : Z) (mode : string) (d : DataProcessor) :
  Checked.processValue input mode = Some (fst (processValue input mode d)).
Proof.
  assert (Hfit : forall z, -100000 <= z <= 100000 ->
                           Checked.fit z = Some z /\ Int.wrap z = z).
  { intros z Hz. split.
    - unfold Checked.fit, Int.min_int, Int.max_int.
      destruct (Z.leb_spec (- 2 ^ 31) z); [| lia].
      destruct (Z.leb_spec z (2 ^ 31 - 1)); [reflexivity | lia].
    - apply Int.wrap_small. unfold Int.in_range, Int.min_int, Int.max_int. lia. }
  unfold Checked.processValue, processValue.
  destruct (Z.ltb_spec 0 input); [| reflexivity].
  destruct (String.eqb mode "double").
  - destruct (Z.ltb_spec input 100); [| reflexivity].
    unfold Checked.mul, Checked.add, Checked.sub, Int.mul, Int.add, Int.sub.
    destruct (Hfit (input * 2) ltac:(lia)) as [-> ->].
    destruct (Hfit (input * 2 + 5) ltac:(lia)) as [Ha1 Ha2].
    destruct (Hfit (input * 2 - 1) ltac:(lia)) as [Hs1 Hs2].
    destruct (Int.rem input 2 =? 0); [destruct (10 <? input) |]; cbn;
      rewrite ?Ha1, ?Ha2, ?Hs1, ?Hs2; reflexivity.
  - destruct (String.eqb mode "triple"); [| reflexivity].
    destruct (Z.ltb_spec input 50); [| reflexivity].
    unfold Checked.mul, Int.mul.
    destruct (Hfit (input * 3) ltac:(lia)) as [-> ->]. reflexivity.
Qed.

(** ** [validateData] on related vectors *)

(** The verdict on a vector. *)
Lemma validateData_fst (d : DataProcessor) (v : list Z) :
  fst (validateData (mkFrame d v)) =
    bool_decide (v <> []) && (size v <? 1000) && forallb (fun x => 0 <? x) v.
Proof. now rewrite validateData_eq. Qed.

(** Two verdicts agree when their truth is equivalent. *)
Lemma verdict_eq (b1 b2 : bool) : (b1 = true <-> b2 = true) -> b1 = b2.
Proof. destruct b1, b2; intuition congruence. Qed.

(** X5: the verdict of [validateData] does not depend on the order of the
    elements: a vector and any permutation of it get the same verdict. *)
Theorem validateData_permutation (d d' : DataProcessor) (v v' : list Z) :
  v ≡ₚ v' ->
  fst (validateData (mkFrame d v)) = fst (validateData (mkFrame d' v')).
Proof.
  intros Hperm. apply verdict_eq.
  rewrite (validateData_true (mkFrame d v)), (validateData_true (mkFrame d' v')).
  cbn [inputData].
  rewrite (Permutation_length Hperm).
  assert (Hnil : v <> [] <-> v' <> []).
  { split; intros Hne ->.
    - apply Hne. now apply Permutation_nil_r.
    - apply Hne. symmetry. now apply Permutation_nil_l. }
  rewrite Hnil. now rewrite Hperm.
Qed.

Lemma validateData_permutation_witness :
  [3; 1; 2] ≡ₚ [1; 2; 3] /\
  fst (validateData (mkFrame new [3; 1; 2])) =
    fst (validateData (mkFrame new [1; 2; 3])).
Proof.
  assert (Hperm : [3; 1; 2] ≡ₚ [1; 2; 3]).
  { change ([3] ++ [1; 2] ≡ₚ [1; 2] ++ [3]). apply Permutation_app_comm. }
  split; [exact Hperm | exact (validateData_permutation new new _ _ Hperm)].
Defined.

Lemma Forall_sublist_pos (v v' : list Z) :
  v' `sublist_of` v -> Forall (fun x => 0 < x) v -> Forall (fun x => 0 < x) v'.
Proof.
  induction 1 as [| x l1 l2 _ IH | x l1 l2 _ IH]; intros Hall.
  - constructor.
  - inversion Hall; subst. constructor; auto.
  - inversion Hall; subst. auto.
Qed.

(** X6: a vector that [validateData] accepts stays accepted when elements
    are removed from it, as long as one is left. *)
Theorem validateData_sublist (d : DataProcessor) (v v' : list Z) :
  v' `sublist_of` v -> v' <> [] ->
  fst (validateData (mkFrame d v)) = true ->
  fst (validateData (mkFrame d v')) = true.
Proof.
  intros Hsub Hne.
  rewrite (validateData_true (mkFrame d v)), (validateData_true (mkFrame d v')).
  cbn [inputData]. intros (_ & Hlen & Hall).
  pose proof (sublist_length _ _ Hsub).
  split; [exact Hne |]. split; [lia |].
  exact (Forall_sublist_pos v v' Hsub Hall).
Qed.

Lemma validateData_sublist_witness :
  [1; 3] `sublist_of` [1; 2; 3] /\ [1; 3] <> [] /\
  fst (validateData (mkFrame new [1; 2; 3])) = true /\
  fst (validateData (mkFrame new [1; 3])) = true.
Proof.
  assert (Hsub : [1; 3] `sublist_of` [1; 2; 3]).
  { apply sublist_skip, sublist_cons, sublist_skip, sublist_nil. }
  split; [exact Hsub |]. split; [discriminate |]. split; [reflexivity |].
  exact (validateData_sublist new _ _ Hsub ltac:(discriminate) eq_refl).
Defined.

(** X7: for two non-empty vectors whose lengths add up to less than 1000,
    the concatenation is accepted exactly when both parts are. *)
Theorem validateData_app (d : DataProcessor) (v1 v2 : list Z) :
  v1 <> [] -> v2 <> [] -> (length v1 + length v2 < 1000)%nat ->
  fst (validateData (mkFrame d (v1 ++ v2))) =
    fst (validateData (mkFrame d v1)) && fst (validateData (mkFrame d v2)).
Proof.
  intros Hne1 Hne2 Hlen. apply verdict_eq.
  rewrite andb_true_iff.
  rewrite (validateData_true (mkFrame d (v1 ++ v2))),
    (validateData_true (mkFrame d v1)), (validateData_true (mkFrame d v2)).
  cbn [inputData]. rewrite length_app, Forall_app.
  assert (v1 ++ v2 <> []) by (destruct v1; [congruence | discriminate]).
  intuition lia.
Qed.

Lemma validateData_app_witness :
  [1; 2] <> [] /\ [-3] <> [] /\
  (length [1; 2]%Z + length [-3]%Z < 1000)%nat /\
  fst (validateData (mkFrame new ([1; 2] ++ [-3]))) =
    fst (validateData (mkFrame new [1; 2])) &&
    fst (validateData (mkFrame new [-3])).
Proof.
  split; [discriminate |]. split; [discriminate |].
  split; [cbn; lia |].
  apply (validateData_app new [1; 2] [-3]); [discriminate | discriminate | cbn; lia].
Defined.



(** ** The store as a function of the calls made *)

Lemma run_calls_app (cs1 cs2 : list call) (d : DataProcessor) :
  run_calls (cs1 ++ cs2) d = run_calls cs2 (run_calls cs1 d).
Proof. unfold run_calls. apply foldl_app. Qed.

Lemma offered_cons (c : call) (cs : list call) :
  offered (c :: cs) =
    match c with
    | CallAddData value =>
        if (0 <? value) && (value <? 10000) then value :: offered cs
        else offered cs
    | _ => offered cs
    end.
Proof.
  destruct c as [input mode | v | value]; try reflexivity.
  unfold offered. cbn [omap list_omap].
  now destruct ((0 <? value) && (value <? 10000)).
Qed.

Example offered_sample :
  offered [CallAddData 5; CallAddData 0; CallProcessValue 3 "double";
           CallAddData 10000; CallValidateData [1]; CallAddData 9] = [5; 9].
Proof. reflexivity. Qed.

(** X9: after any sequence of calls the store holds what it held before,
    followed by the offered values that passed the range guards of
    [addData], in call order, cut where the store reaches 100 elements.
    Calls of [processValue] and [validateData] leave no trace. *)
Theorem store_after_calls (cs : list call) (d : DataProcessor) :
  data (run_calls cs d) = data d ++ take (100 - length (data d)) (offered cs).
Proof.
  revert d. induction cs as [| c cs IH]; intros d.
  - unfold offered. cbn. now rewrite take_nil, app_nil_r.
  - rewrite run_calls_cons, IH, offered_cons.
    destruct (step_data d c) as [Hsame | (value & -> & (Hpos & Hmax & Hroom) & ->)].
    + rewrite Hsame. destruct c as [input mode | v | value]; try reflexivity.
      destruct (Z.ltb_spec 0 value), (Z.ltb_spec value 10000);
        cbn [andb]; try reflexivity.
      (* in range and still not pushed: the store is full *)
      assert (Hfull : (100 - length (data d) = 0)%nat).
      { destruct (accepts_dec value d) as [Hyes | Hno].
        - exfalso. cbn [step] in Hsame. rewrite addData_accept in Hsame by exact Hyes.
          exact (push_back_neq value d Hsame).
        - unfold accepts in Hno. lia. }
      now rewrite Hfull.
    + unfold push_back. cbn [data]. rewrite length_app. cbn [length].
      rewrite (proj2 (Z.ltb_lt _ _) Hpos), (proj2 (Z.ltb_lt _ _) Hmax). cbn [andb].
      replace (100 - length (data d))%nat
        with (S (100 - (length (data d) + 1)))%nat by lia.
      cbn [take]. now rewrite <- app_assoc.
Qed.

(** X10: a store that holds 100 elements is frozen: no sequence of calls
    changes the instance any more. *)
Theorem full_store_frozen (cs : list call) (d : DataProcessor) :
  (100 <= length (data d))%nat -> run_calls cs d = d.
Proof.
  intros Hfull. induction cs as [| c cs IH]; [reflexivity |].
  rewrite run_calls_cons.
  destruct (step_data d c) as [-> | (value & _ & (_ & _ & Hroom) & _)];
    [exact IH | lia].
Qed.

Lemma full_store_frozen_witness :
  (100 <= length (data (mkDataProcessor (replicate 100 7%Z))))%nat /\
  run_calls [CallAddData 5; CallProcessValue 3 "double"; CallAddData 9]
    (mkDataProcessor (replicate 100 7)) = mkDataProcessor (replicate 100 7).
Proof.
  assert (Hfull : (100 <= length (data (mkDataProcessor (replicate 100 7%Z))))%nat).
  { cbn [data]. rewrite length_replicate. lia. }
  split; [exact Hfull | exact (full_store_frozen _ _ Hfull)].
Defined.

(** X11: what [addData] has stored passes [validateData]: the store of every
    reachable instance, once it is not empty, is a vector that
    [validateData] accepts. *)
Theorem reachable_store_validates (d d' : DataProcessor) :
  reachable d -> data d <> [] ->
  fst (validateData (mkFrame d' (data d))) = true.
Proof.
  intros Hd Hne. destruct (reachable_store_ok d Hd) as [Hall Hlen].
  apply validateData_true. cbn [inputData].
  split; [exact Hne |]. split; [lia |].
  eapply Forall_impl; [exact Hall |]. cbn. intros x Hx. lia.
Qed.

Lemma reachable_store_validates_witness :
  reachable (mkDataProcessor [7; 8]) /\ [7; 8] <> [] /\
  fst (validateData (mkFrame new [7; 8])) = true.
Proof.
  assert (Hr : reachable (mkDataProcessor [7; 8])).
  { exact (reachable_step (step new (CallAddData 7)) (CallAddData 8)
             (reachable_step new (CallAddData 7) reachable_new)). }
  split; [exact Hr |]. split; [discriminate |].
  exact (reachable_store_validates (mkDataProcessor [7; 8]) new Hr ltac:(discriminate)).
Defined.

(** X12: a vector that [validateData] accepts, of at most 100 elements that
    are all below 10000, is stored whole and in order when its elements are
    passed one by one to [addData] on a fresh instance. *)
Theorem validated_vector_stored (d : DataProcessor) (v : list Z) :
  fst (validateData (mkFrame d v)) = true ->
  (length v <= 100)%nat -> Forall (fun x => x < 10000) v ->
  data (run_calls (map CallAddData v) new) = v.
Proof.
  intros Hvalid Hlen Hmax.
  apply validateData_true in Hvalid. cbn [inputData] in Hvalid.
  destruct Hvalid as (_ & _ & Hpos).
  assert (Hrange : Forall (fun x => 0 < x < 10000) v).
  { rewrite List.Forall_forall in *. intros x Hx.
    specialize (Hpos x Hx). specialize (Hmax x Hx). lia. }
  rewrite (run_addData v new Hrange) by (cbn; lia).
  cbn [new data length app]. apply take_ge. lia.
Qed.

Lemma validated_vector_stored_witness :
  fst (validateData (mkFrame new [3; 1; 2])) = true /\
  (length [3; 1; 2]%Z <= 100)%nat /\ Forall (fun x => x < 10000) [3; 1; 2] /\
  data (run_calls (map CallAddData [3; 1; 2]) new) = [3; 1; 2].
Proof.
  assert (Hmax : Forall (fun x => x < 10000) [3; 1; 2]).
  { repeat constructor. }
  split; [reflexivity |]. split; [cbn; lia |]. split; [exact Hmax |].
  apply (validated_vector_stored new [3; 1; 2]); [reflexivity | cbn; lia | exact Hmax].
Defined.
